(** * Storage instructions of the Tangerine Whistle EVM

    A shallow embedding of
    [src/ethereum/tangerine_whistle/vm/instructions/storage.py]
    (the [sload] and [sstore] instructions) together with the
    collaborators they import: the operand stack, the gas accountant and
    the world-state store.

    Python exceptions leave every mutation made before the [raise] in
    place, so an instruction is embedded as a function from the frame to
    an outcome that always carries the frame as it is when control leaves
    the instruction, whether normally or by an exception.  The outcome
    also carries the list of collaborator calls and field updates that
    were performed, in program order, so that statements about the order
    of effects (and about effects that did not happen) can be written
    down. *)

From Stdlib Require Import NArith Lia List.
From Stdlib.Strings Require Import Byte.
From stdpp Require Import base decidable countable gmap list.

Local Open Scope N_scope.

(** ** Base types *)

(** [Uint] is Python's unbounded non-negative integer, [U256] a
    non-negative integer below [U256_CEIL]. *)
Abbreviation Uint := N (only parsing).
Abbreviation U256 := N (only parsing).

Definition U256_CEIL : N := 2 ^ 256.

Definition is_u256 (w : N) : Prop := w < U256_CEIL.

Abbreviation Bytes := (list byte) (only parsing).
Abbreviation Address := (list byte) (only parsing).

#[global] Instance byte_eq_dec : EqDecision byte := Byte.byte_eq_dec.

#[global] Instance byte_countable : Countable byte :=
  inj_countable Byte.to_N Byte.of_N Byte.of_to_N.

(** The byte whose value is [n mod 256]. *)
Definition byte_of_N (n : N) : byte :=
  match Byte.of_N (n mod 256) with
  | Some b => b
  | None => x00
  end.

(** Little-endian digits in base 256, [len] of them. *)
Fixpoint to_le_bytes (len : nat) (w : N) : Bytes :=
  match len with
  | O => []
  | S len' => byte_of_N w :: to_le_bytes len' (w / 256)
  end.

Fixpoint from_le_bytes (bs : Bytes) : N :=
  match bs with
  | [] => 0
  | b :: bs' => Byte.to_N b + 256 * from_le_bytes bs'
  end.

(** Modelled from the spec: [U256.to_be_bytes32] lives in the base types
    module, which is not part of the sources at hand; the spec has the
    popped word interpreted "as a 256-bit big-endian storage key". *)
Definition to_be_bytes32 (w : U256) : Bytes := rev (to_le_bytes 32 w).

Definition from_be_bytes (bs : Bytes) : N := from_le_bytes (rev bs).

(** ** World state *)

(** Modelled from the spec: the state module is not part of the sources
    at hand.  The spec describes a "key-value store of storage slots
    keyed by (contract address, slot key)". *)
Abbreviation State := (gmap (list byte * list byte) N) (only parsing).

(** Modelled from the spec: [get(address, key) -> Word] "returns zero for
    unset keys". *)
Definition get_storage (st : State) (address : Address) (key : Bytes) : U256 :=
  default 0 (st !! (address, key)).

(** Modelled from the spec: [set(address, key, Word)] "creates,
    overwrites, or logically clears via zero". *)
Definition set_storage (st : State) (address : Address) (key : Bytes)
    (value : U256) : State :=
  if value =? 0 then delete (address, key) st
  else <[(address, key) := value]> st.

(** ** Execution frame *)

Record Message := mkMessage { current_target : Address }.

Record Environment := mkEnvironment { state : State }.

(** Modelled from the spec: the [Evm] class is declared outside the
    sources at hand; these are the fields the two instructions use. *)
Record Evm := mkEvm {
  stack : list U256;          (* head of the list = top of the stack *)
  pc : Uint;
  gas_left : Uint;
  refund_counter : Uint;
  message : Message;
  env : Environment
}.

Definition with_stack (s : list U256) (evm : Evm) : Evm :=
  mkEvm s (pc evm) (gas_left evm) (refund_counter evm) (message evm) (env evm).

Definition with_pc (p : Uint) (evm : Evm) : Evm :=
  mkEvm (stack evm) p (gas_left evm) (refund_counter evm) (message evm) (env evm).

Definition with_gas_left (g : Uint) (evm : Evm) : Evm :=
  mkEvm (stack evm) (pc evm) g (refund_counter evm) (message evm) (env evm).

Definition with_refund_counter (r : Uint) (evm : Evm) : Evm :=
  mkEvm (stack evm) (pc evm) (gas_left evm) r (message evm) (env evm).

Definition with_state (st : State) (evm : Evm) : Evm :=
  mkEvm (stack evm) (pc evm) (gas_left evm) (refund_counter evm) (message evm)
        (mkEnvironment st).

(** ** Exceptions, effects and the execution monad *)

Inductive Exception :=
| StackUnderflowError
| StackOverflowError
| OutOfGasError.

(** What an instruction did, in program order. *)
Inductive Event :=
| EvPop (w : U256)
| EvPush (w : U256)
| EvCharge (amount : Uint)
| EvGetStorage (address : Address) (key : Bytes) (value : U256)
| EvSetStorage (address : Address) (key : Bytes) (value : U256)
| EvRefund (amount : Uint)
| EvPc.

Inductive Result (A : Type) :=
| Ok (a : A)
| Raise (e : Exception).
Arguments Ok {A} a.
Arguments Raise {A} e.

Record Outcome (A : Type) := mkOutcome {
  out_evm : Evm;
  out_trace : list Event;
  out_res : Result A
}.
Arguments mkOutcome {A} _ _ _.
Arguments out_evm {A} _.
Arguments out_trace {A} _.
Arguments out_res {A} _.

Definition Exec (A : Type) : Type := Evm → Outcome A.

#[global] Instance Exec_ret : MRet Exec :=
  λ A a evm, mkOutcome evm [] (Ok a).

#[global] Instance Exec_bind : MBind Exec :=
  λ A B f m evm,
    let o := m evm in
    match out_res o with
    | Ok a =>
        let o' := f a (out_evm o) in
        mkOutcome (out_evm o') (out_trace o ++ out_trace o') (out_res o')
    | Raise e => mkOutcome (out_evm o) (out_trace o) (Raise e)
    end.

(** [raise e]: control leaves the instruction, the frame stays as it is. *)
Definition raise {A : Type} (e : Exception) : Exec A :=
  λ evm, mkOutcome evm [] (Raise e).

(** Read a field of the frame. *)
Definition gets {A : Type} (f : Evm → A) : Exec A :=
  λ evm, mkOutcome evm [] (Ok (f evm)).

(** ** Stack *)

Definition STACK_DEPTH_LIMIT : nat := 1024.

(** Modelled from the spec: [pop() -> Word] "fails StackUnderflow if
    empty"; the stack module is not part of the sources at hand. *)
Definition pop : Exec U256 :=
  λ evm,
    match stack evm with
    | [] => raise StackUnderflowError evm
    | w :: rest => mkOutcome (with_stack rest evm) [EvPop w] (Ok w)
    end.

(** Modelled from the spec: [push(Word)] "fails StackOverflow if depth
    limit exceeded", the limit being "max depth 1024". *)
Definition push (value : U256) : Exec unit :=
  λ evm,
    if (STACK_DEPTH_LIMIT <=? length (stack evm))%nat
    then raise StackOverflowError evm
    else mkOutcome (with_stack (value :: stack evm) evm) [EvPush value] (Ok tt).

(** ** Gas *)

(** Modelled from the spec: [charge(frame, amount)] "decrements
    [gas_left] by [amount] or fails OutOfGas leaving [gas_left == 0]";
    the gas module is not part of the sources at hand. *)
Definition charge_gas (amount : Uint) : Exec unit :=
  λ evm,
    if gas_left evm <? amount
    then mkOutcome (with_gas_left 0 evm) [EvCharge amount] (Raise OutOfGasError)
    else mkOutcome (with_gas_left (gas_left evm - amount) evm)
                   [EvCharge amount] (Ok tt).

(** ** Frame-level wrappers of the statements of the two instructions *)

(** [get_storage(evm.env.state, address, key)] *)
Definition evm_get_storage (address : Address) (key : Bytes) : Exec U256 :=
  λ evm,
    let value := get_storage (state (env evm)) address key in
    mkOutcome evm [EvGetStorage address key value] (Ok value).

(** [set_storage(evm.env.state, address, key, value)]: the state object
    of the frame is updated in place. *)
Definition evm_set_storage (address : Address) (key : Bytes) (value : U256)
    : Exec unit :=
  λ evm,
    mkOutcome (with_state (set_storage (state (env evm)) address key value) evm)
              [EvSetStorage address key value] (Ok tt).

(** [evm.refund_counter += amount] *)
Definition add_refund (amount : Uint) : Exec unit :=
  λ evm,
    mkOutcome (with_refund_counter (refund_counter evm + amount) evm)
              [EvRefund amount] (Ok tt).

(** [evm.pc += 1] *)
Definition incr_pc : Exec unit :=
  λ evm, mkOutcome (with_pc (pc evm + 1) evm) [EvPc] (Ok tt).

(** ** The instructions *)

Section Instructions.

(** The gas constants are imported from the gas module, which is not
    part of the sources at hand; the spec has them "supplied to this
    subsystem rather than hardcoded". *)
Variables GAS_SLOAD GAS_STORAGE_SET GAS_STORAGE_UPDATE
          GAS_STORAGE_CLEAR_REFUND : Uint.

Definition sload : Exec unit :=
  (* STACK *)
  k ← pop;
  let key := to_be_bytes32 k in
  (* GAS *)
  charge_gas GAS_SLOAD;;
  (* OPERATION *)
  target ← gets (λ evm, current_target (message evm));
  value ← evm_get_storage target key;
  push value;;
  (* PROGRAM COUNTER *)
  incr_pc.

Definition sstore : Exec unit :=
  (* STACK *)
  k ← pop;
  let key := to_be_bytes32 k in
  new_value ← pop;
  (* GAS *)
  target ← gets (λ evm, current_target (message evm));
  current_value ← evm_get_storage target key;
  let gas_cost :=
    if negb (new_value =? 0) && (current_value =? 0)
    then GAS_STORAGE_SET
    else GAS_STORAGE_UPDATE in
  charge_gas gas_cost;;
  (if (new_value =? 0) && negb (current_value =? 0)
   then add_refund GAS_STORAGE_CLEAR_REFUND
   else mret tt);;
  (* OPERATION *)
  evm_set_storage target key new_value;;
  (* PROGRAM COUNTER *)
  incr_pc.

End Instructions.

(** ** Vocabulary of the statements *)

(** Two states hold the same contents when every slot reads the same;
    an entry holding zero and a missing entry are not told apart. *)
Definition same_contents (s1 s2 : State) : Prop :=
  ∀ address key, get_storage s1 address key = get_storage s2 address key.

(** Two frames that agree on every field, the world state being compared
    by its contents. *)
Definition same_frame (e1 e2 : Evm) : Prop :=
  stack e1 = stack e2 ∧ pc e1 = pc e2 ∧ gas_left e1 = gas_left e2 ∧
  refund_counter e1 = refund_counter e2 ∧
  current_target (message e1) = current_target (message e2) ∧
  same_contents (state (env e1)) (state (env e2)).

Definition same_outcome {A : Type} (o1 o2 : Outcome A) : Prop :=
  same_frame (out_evm o1) (out_evm o2) ∧
  out_trace o1 = out_trace o2 ∧
  out_res o1 = out_res o2.

(** The amounts handed to [charge_gas], the slots read, the slots written
    and the refunds granted in a trace. *)
Definition charges (tr : list Event) : list Uint :=
  omap (λ e, match e with EvCharge a => Some a | _ => None end) tr.

Definition reads (tr : list Event) : list (Address * Bytes) :=
  omap (λ e, match e with EvGetStorage a k _ => Some (a, k) | _ => None end) tr.

Definition writes (tr : list Event) : list (Address * Bytes * U256) :=
  omap (λ e, match e with EvSetStorage a k v => Some (a, k, v) | _ => None end) tr.

Definition refunds (tr : list Event) : list Uint :=
  omap (λ e, match e with EvRefund a => Some a | _ => None end) tr.

(** The value of the slot that an instruction of the frame [evm]
    addresses with the word [k]. *)
Definition slot_value (evm : Evm) (k : U256) : U256 :=
  get_storage (state (env evm)) (current_target (message evm)) (to_be_bytes32 k).

(** What [sstore] charges and refunds for writing [new_value] over
    [current_value], as functions of the gas constants. *)
Definition store_cost (gas_set gas_update : Uint)
    (new_value current_value : U256) : Uint :=
  if negb (new_value =? 0) && (current_value =? 0)
  then gas_set else gas_update.

Definition store_refund (gas_clear_refund : Uint)
    (new_value current_value : U256) : Uint :=
  if (new_value =? 0) && negb (current_value =? 0)
  then gas_clear_refund else 0.

(** The frame invariant of the data model: at most 1024 words. *)
Definition stack_in_bounds (evm : Evm) : Prop :=
  (length (stack evm) ≤ STACK_DEPTH_LIMIT)%nat.

(** Whether control left the instruction normally. *)
Definition completed {A : Type} (o : Outcome A) : bool :=
  match out_res o with
  | Ok _ => true
  | Raise _ => false
  end.

(** ** Sample frames *)

(** The constants of the scenarios of the documentation. *)
Definition G_LOAD : Uint := 50.
Definition G_SET : Uint := 20000.
Definition G_RESET : Uint := 5000.
Definition G_CLEAR_REFUND : Uint := 15000.

(** A 20-byte contract address. *)
Definition sample_target : Address := repeat x00 19 ++ [x2a].

Definition sample_frame (stk : list U256) (gas : Uint) (st : State) : Evm :=
  mkEvm stk 0 gas 0 (mkMessage sample_target) (mkEnvironment st).

(** Slot 5 of the sample contract holding 7, and nothing else. *)
Definition state_slot5_is_7 : State :=
  {[ (sample_target, to_be_bytes32 5) := 7 ]}.

(** A state with an entry that holds zero: its contents are those of the
    empty state, its representation is not. *)
Definition state_explicit_zero : State :=
  {[ (sample_target, to_be_bytes32 9) := 0 ]}.

(** Evaluation of an instruction on a frame given by its fields. *)
Ltac exec_run :=
  cbv [sload sstore mbind Exec_bind mret Exec_ret pop push charge_gas gets
       evm_get_storage evm_set_storage add_refund incr_pc raise
       with_stack with_pc with_gas_left with_refund_counter with_state
       stack pc gas_left refund_counter message env current_target state
       out_evm out_trace out_res app slot_value].

Ltac exec_frame evm :=
  destruct evm as [s p g r [t] [st]];
  cbv [slot_value stack pc gas_left refund_counter message env current_target
       state] in *;
  subst; exec_run.


(** * Properties *)

(** ** Big-endian keys *)

Lemma to_N_byte_of_N (n : N) : Byte.to_N (byte_of_N n) = n mod 256.
Proof.
  unfold byte_of_N.
  destruct (Byte.of_N (n mod 256)) as [b|] eqn:E.
  - now apply Byte.to_of_N.
  - apply Byte.of_N_None_iff in E.
    pose proof (N.mod_upper_bound n 256). lia.
Qed.

Lemma length_to_le_bytes (len : nat) (w : N) :
  length (to_le_bytes len w) = len.
Proof.
  revert w. induction len as [|len IH]; intros w; simpl; [done|].
  now rewrite IH.
Qed.

Lemma from_to_le_bytes (len : nat) (w : N) :
  from_le_bytes (to_le_bytes len w) = w mod 256 ^ N.of_nat len.
Proof.
  revert w. induction len as [|len IH]; intros w.
  - simpl. now rewrite N.mod_1_r.
  - cbn [to_le_bytes from_le_bytes].
    rewrite to_N_byte_of_N, IH, Nnat.Nat2N.inj_succ, N.pow_succ_r'.
    rewrite (N.Div0.mod_mul_r w 256 (256 ^ N.of_nat len)). lia.
Qed.

Lemma length_to_be_bytes32 (w : U256) : length (to_be_bytes32 w) = 32%nat.
Proof.
  unfold to_be_bytes32. now rewrite length_rev, length_to_le_bytes.
Qed.

Lemma from_to_be_bytes32 (w : U256) :
  from_be_bytes (to_be_bytes32 w) = w mod U256_CEIL.
Proof.
  unfold from_be_bytes, to_be_bytes32.
  rewrite rev_involutive, from_to_le_bytes. reflexivity.
Qed.

(** On 256-bit words the key determines the word. *)
Lemma to_be_bytes32_inj (v w : U256) :
  is_u256 v → is_u256 w → to_be_bytes32 v = to_be_bytes32 w → v = w.
Proof.
  unfold is_u256. intros Hv Hw E.
  apply (f_equal from_be_bytes) in E.
  rewrite !from_to_be_bytes32 in E.
  now rewrite !N.mod_small in E.
Qed.

(** ** World state *)

Lemma get_storage_empty (address : Address) (key : Bytes) :
  get_storage ∅ address key = 0.
Proof. unfold get_storage. now rewrite lookup_empty. Qed.

Lemma get_set_storage_eq (st : State) (address : Address) (key : Bytes)
    (value : U256) :
  get_storage (set_storage st address key value) address key = value.
Proof.
  unfold get_storage, set_storage.
  destruct (N.eqb_spec value 0) as [->|_].
  - now rewrite lookup_delete_eq.
  - now rewrite lookup_insert_eq.
Qed.

Lemma get_set_storage_ne (st : State) (a a' : Address) (k k' : Bytes)
    (value : U256) :
  (a, k) ≠ (a', k') →
  get_storage (set_storage st a k value) a' k' = get_storage st a' k'.
Proof.
  intros Hne. unfold get_storage, set_storage.
  destruct (value =? 0).
  - now rewrite lookup_delete_ne.
  - now rewrite lookup_insert_ne.
Qed.

Lemma same_contents_refl (s : State) : same_contents s s.
Proof. now intros a k. Qed.

Lemma same_contents_set_storage (s1 s2 : State) (a : Address) (k : Bytes)
    (v : U256) :
  same_contents s1 s2 →
  same_contents (set_storage s1 a k v) (set_storage s2 a k v).
Proof.
  intros H a' k'.
  destruct (decide ((a, k) = (a', k'))) as [E|Hne].
  - injection E as <- <-. now rewrite !get_set_storage_eq.
  - rewrite !get_set_storage_ne by done. apply H.
Qed.

(** ** Running the instructions *)

Section Properties.

Variables GAS_SLOAD GAS_STORAGE_SET GAS_STORAGE_UPDATE
          GAS_STORAGE_CLEAR_REFUND : Uint.

Local Abbreviation sload := (sload GAS_SLOAD).
Local Abbreviation sstore :=
  (sstore GAS_STORAGE_SET GAS_STORAGE_UPDATE GAS_STORAGE_CLEAR_REFUND).

(** *** [sload], case by case *)

Lemma sload_empty (evm : Evm) :
  stack evm = [] →
  sload evm = mkOutcome evm [] (Raise StackUnderflowError).
Proof. intros H. now exec_frame evm. Qed.

Lemma sload_out_of_gas (evm : Evm) (k : U256) (rest : list U256) :
  stack evm = k :: rest →
  gas_left evm < GAS_SLOAD →
  sload evm =
    mkOutcome
      (mkEvm rest (pc evm) 0 (refund_counter evm) (message evm) (env evm))
      [EvPop k; EvCharge GAS_SLOAD] (Raise OutOfGasError).
Proof.
  intros Hs Hg. exec_frame evm.
  apply N.ltb_lt in Hg. now rewrite Hg.
Qed.

Lemma sload_overflow (evm : Evm) (k : U256) (rest : list U256) :
  stack evm = k :: rest →
  GAS_SLOAD ≤ gas_left evm →
  (STACK_DEPTH_LIMIT ≤ length rest)%nat →
  sload evm =
    mkOutcome
      (mkEvm rest (pc evm) (gas_left evm - GAS_SLOAD) (refund_counter evm)
             (message evm) (env evm))
      [EvPop k; EvCharge GAS_SLOAD;
       EvGetStorage (current_target (message evm)) (to_be_bytes32 k)
                    (slot_value evm k)]
      (Raise StackOverflowError).
Proof.
  intros Hs Hg Hl. exec_frame evm.
  apply N.ltb_ge in Hg. rewrite Hg.
  apply Nat.leb_le in Hl. now rewrite Hl.
Qed.

Lemma sload_ok (evm : Evm) (k : U256) (rest : list U256) :
  stack evm = k :: rest →
  GAS_SLOAD ≤ gas_left evm →
  (length rest < STACK_DEPTH_LIMIT)%nat →
  sload evm =
    mkOutcome
      (mkEvm (slot_value evm k :: rest) (pc evm + 1)
             (gas_left evm - GAS_SLOAD) (refund_counter evm)
             (message evm) (env evm))
      [EvPop k; EvCharge GAS_SLOAD;
       EvGetStorage (current_target (message evm)) (to_be_bytes32 k)
                    (slot_value evm k);
       EvPush (slot_value evm k); EvPc]
      (Ok tt).
Proof.
  intros Hs Hg Hl. exec_frame evm.
  apply N.ltb_ge in Hg. rewrite Hg.
  apply Nat.leb_gt in Hl. now rewrite Hl.
Qed.

(** *** [sstore], case by case *)

Lemma sstore_empty (evm : Evm) :
  stack evm = [] →
  sstore evm = mkOutcome evm [] (Raise StackUnderflowError).
Proof. intros H. now exec_frame evm. Qed.

Lemma sstore_single (evm : Evm) (k : U256) :
  stack evm = [k] →
  sstore evm =
    mkOutcome
      (mkEvm [] (pc evm) (gas_left evm) (refund_counter evm) (message evm)
             (env evm))
      [EvPop k] (Raise StackUnderflowError).
Proof. intros H. now exec_frame evm. Qed.

Lemma sstore_out_of_gas (evm : Evm) (k new_value : U256) (rest : list U256) :
  stack evm = k :: new_value :: rest →
  gas_left evm <
    store_cost GAS_STORAGE_SET GAS_STORAGE_UPDATE new_value (slot_value evm k) →
  sstore evm =
    mkOutcome
      (mkEvm rest (pc evm) 0 (refund_counter evm) (message evm) (env evm))
      [EvPop k; EvPop new_value;
       EvGetStorage (current_target (message evm)) (to_be_bytes32 k)
                    (slot_value evm k);
       EvCharge (store_cost GAS_STORAGE_SET GAS_STORAGE_UPDATE new_value
                            (slot_value evm k))]
      (Raise OutOfGasError).
Proof.
  intros Hs Hg. unfold store_cost in *. exec_frame evm.
  apply N.ltb_lt in Hg. now rewrite Hg.
Qed.

Lemma sstore_ok (evm : Evm) (k new_value : U256) (rest : list U256) :
  stack evm = k :: new_value :: rest →
  store_cost GAS_STORAGE_SET GAS_STORAGE_UPDATE new_value (slot_value evm k)
    ≤ gas_left evm →
  sstore evm =
    mkOutcome
      (mkEvm rest (pc evm + 1)
         (gas_left evm
          - store_cost GAS_STORAGE_SET GAS_STORAGE_UPDATE new_value
                       (slot_value evm k))
         (refund_counter evm
          + store_refund GAS_STORAGE_CLEAR_REFUND new_value (slot_value evm k))
         (message evm)
         (mkEnvironment
            (set_storage (state (env evm)) (current_target (message evm))
                         (to_be_bytes32 k) new_value)))
      ([EvPop k; EvPop new_value;
        EvGetStorage (current_target (message evm)) (to_be_bytes32 k)
                     (slot_value evm k);
        EvCharge (store_cost GAS_STORAGE_SET GAS_STORAGE_UPDATE new_value
                             (slot_value evm k))]
       ++ (if (new_value =? 0) && negb (slot_value evm k =? 0)
           then [EvRefund GAS_STORAGE_CLEAR_REFUND] else [])
       ++ [EvSetStorage (current_target (message evm)) (to_be_bytes32 k)
                        new_value; EvPc])
      (Ok tt).
Proof.
  intros Hs Hg. unfold store_cost, store_refund in *. exec_frame evm.
  apply N.ltb_ge in Hg. rewrite Hg.
  destruct (new_value =? 0), (get_storage st t (to_be_bytes32 k) =? 0);
    cbn [negb andb app]; rewrite ?N.add_0_r; reflexivity.
Qed.

(** *** Cost and refund of a store *)

Lemma store_cost_set (new_value current_value : U256) :
  new_value ≠ 0 → current_value = 0 →
  store_cost GAS_STORAGE_SET GAS_STORAGE_UPDATE new_value current_value
  = GAS_STORAGE_SET.
Proof.
  intros Hn ->. unfold store_cost.
  apply N.eqb_neq in Hn. now rewrite Hn.
Qed.

Lemma store_cost_update (new_value current_value : U256) :
  ¬ (new_value ≠ 0 ∧ current_value = 0) →
  store_cost GAS_STORAGE_SET GAS_STORAGE_UPDATE new_value current_value
  = GAS_STORAGE_UPDATE.
Proof.
  intros H. unfold store_cost.
  destruct (N.eqb_spec new_value 0), (N.eqb_spec current_value 0);
    cbn [negb andb]; try reflexivity.
  exfalso. now apply H.
Qed.

Lemma store_refund_clear (new_value current_value : U256) :
  new_value = 0 → current_value ≠ 0 →
  store_refund GAS_STORAGE_CLEAR_REFUND new_value current_value
  = GAS_STORAGE_CLEAR_REFUND.
Proof.
  intros -> Hc. unfold store_refund.
  apply N.eqb_neq in Hc. now rewrite Hc.
Qed.

Lemma store_refund_none (new_value current_value : U256) :
  ¬ (new_value = 0 ∧ current_value ≠ 0) →
  store_refund GAS_STORAGE_CLEAR_REFUND new_value current_value = 0.
Proof.
  intros H. unfold store_refund.
  destruct (N.eqb_spec new_value 0), (N.eqb_spec current_value 0);
    cbn [negb andb]; try reflexivity.
  exfalso. now apply H.
Qed.

(** A store that completes had its cost covered. *)
Lemma sstore_ok_inv (evm : Evm) (k new_value : U256) (rest : list U256) :
  stack evm = k :: new_value :: rest →
  out_res (sstore evm) = Ok tt →
  store_cost GAS_STORAGE_SET GAS_STORAGE_UPDATE new_value (slot_value evm k)
    ≤ gas_left evm.
Proof.
  intros Hs Hok.
  destruct (N.lt_ge_cases (gas_left evm)
              (store_cost GAS_STORAGE_SET GAS_STORAGE_UPDATE new_value
                          (slot_value evm k))) as [Hlt|Hge]; [|exact Hge].
  rewrite (sstore_out_of_gas _ _ _ _ Hs Hlt) in Hok. discriminate.
Qed.

(** A store that runs out of gas had two operands and too little gas. *)
Lemma sstore_out_of_gas_inv (evm : Evm) :
  out_res (sstore evm) = Raise OutOfGasError →
  ∃ k new_value rest,
    stack evm = k :: new_value :: rest ∧
    gas_left evm <
      store_cost GAS_STORAGE_SET GAS_STORAGE_UPDATE new_value
                 (slot_value evm k).
Proof.
  intros Hoog.
  destruct (stack evm) as [|k [|new_value rest]] eqn:Hs.
  - rewrite (sstore_empty _ Hs) in Hoog. discriminate.
  - rewrite (sstore_single _ _ Hs) in Hoog. discriminate.
  - exists k, new_value, rest. split; [reflexivity|].
    destruct (N.lt_ge_cases (gas_left evm)
                (store_cost GAS_STORAGE_SET GAS_STORAGE_UPDATE new_value
                            (slot_value evm k))) as [Hlt|Hge]; [exact Hlt|].
    rewrite (sstore_ok _ _ _ _ Hs Hge) in Hoog. discriminate.
Qed.

(** *** Gas, refund and failure of [sstore] *)

(** C1.  An [sstore] that reaches the gas-charge step (two operands
    were popped) hands exactly one amount to [charge_gas]:
    [GAS_STORAGE_SET] when the new value is nonzero and the stored value
    is zero, [GAS_STORAGE_UPDATE] in every other case; when the two
    constants differ the first case is the only one that charges
    [GAS_STORAGE_SET]; and a store that completes has [gas_left] lowered
    by that amount. *)
Theorem sstore_gas_charged (evm : Evm) (k new_value : U256)
    (rest : list U256) :
  stack evm = k :: new_value :: rest →
  ∃ amount,
    charges (out_trace (sstore evm)) = [amount] ∧
    (new_value ≠ 0 ∧ slot_value evm k = 0 → amount = GAS_STORAGE_SET) ∧
    (¬ (new_value ≠ 0 ∧ slot_value evm k = 0) →
       amount = GAS_STORAGE_UPDATE) ∧
    (GAS_STORAGE_SET ≠ GAS_STORAGE_UPDATE →
       (amount = GAS_STORAGE_SET ↔ new_value ≠ 0 ∧ slot_value evm k = 0)) ∧
    (out_res (sstore evm) = Ok tt →
       gas_left (out_evm (sstore evm)) + amount = gas_left evm).
Proof.
  intros Hs.
  set (cost := store_cost GAS_STORAGE_SET GAS_STORAGE_UPDATE new_value
                          (slot_value evm k)).
  assert (Hset : new_value ≠ 0 ∧ slot_value evm k = 0 →
                 cost = GAS_STORAGE_SET)
    by (intros [Hn Hc]; now apply store_cost_set).
  assert (Hupd : ¬ (new_value ≠ 0 ∧ slot_value evm k = 0) →
                 cost = GAS_STORAGE_UPDATE)
    by (apply store_cost_update).
  exists cost. split; [|split; [|split; [|split]]].
  - destruct (N.lt_ge_cases (gas_left evm) cost) as [Hlt|Hge].
    + now rewrite (sstore_out_of_gas _ _ _ _ Hs Hlt).
    + rewrite (sstore_ok _ _ _ _ Hs Hge). cbn [out_trace].
      now destruct ((new_value =? 0) && negb (slot_value evm k =? 0)).
  - exact Hset.
  - exact Hupd.
  - intros Hne. split; [|exact Hset].
    intros Hc.
    destruct (decide (new_value ≠ 0 ∧ slot_value evm k = 0)) as [Hy|Hn];
      [exact Hy|].
    exfalso. apply Hne. rewrite <- Hc. now apply Hupd.
  - intros Hok. pose proof (sstore_ok_inv _ _ _ _ Hs Hok) as Hge.
    rewrite (sstore_ok _ _ _ _ Hs Hge). cbn [out_evm gas_left].
    fold cost in Hge |- *. lia.
Qed.

(** C2.  A store that completes raises [refund_counter] by exactly
    [GAS_STORAGE_CLEAR_REFUND] when the new value is zero and the stored
    value is nonzero, and leaves it as it is for every other transition;
    the refund is granted at most once in the call. *)
Theorem sstore_refund_counter (evm : Evm) (k new_value : U256)
    (rest : list U256) :
  stack evm = k :: new_value :: rest →
  out_res (sstore evm) = Ok tt →
  (new_value = 0 ∧ slot_value evm k ≠ 0 →
     refund_counter (out_evm (sstore evm))
     = refund_counter evm + GAS_STORAGE_CLEAR_REFUND ∧
     refunds (out_trace (sstore evm)) = [GAS_STORAGE_CLEAR_REFUND]) ∧
  (¬ (new_value = 0 ∧ slot_value evm k ≠ 0) →
     refund_counter (out_evm (sstore evm)) = refund_counter evm ∧
     refunds (out_trace (sstore evm)) = []) ∧
  (length (refunds (out_trace (sstore evm))) ≤ 1)%nat.
Proof.
  intros Hs Hok. pose proof (sstore_ok_inv _ _ _ _ Hs Hok) as Hge.
  rewrite (sstore_ok _ _ _ _ Hs Hge). cbn [out_evm out_trace refund_counter].
  split; [|split].
  - intros [Hn Hc]. rewrite store_refund_clear by done.
    subst new_value. apply N.eqb_neq in Hc. now rewrite Hc.
  - intros H. rewrite store_refund_none by done. rewrite N.add_0_r.
    split; [reflexivity|].
    destruct (N.eqb_spec new_value 0), (N.eqb_spec (slot_value evm k) 0);
      cbn [negb andb]; try reflexivity.
    exfalso. now apply H.
  - destruct ((new_value =? 0) && negb (slot_value evm k =? 0)); cbn; lia.
Qed.

(** C3.  When [sstore] fails with [OutOfGasError], two operands were
    popped and the slot was read, and that is all: the charge is the
    last thing that happened, nothing was written, nothing refunded; the
    world state, the slot and [refund_counter] are as before. *)
Theorem sstore_out_of_gas_unchanged (evm : Evm) :
  out_res (sstore evm) = Raise OutOfGasError →
  ∃ k new_value rest,
    stack evm = k :: new_value :: rest ∧
    out_trace (sstore evm) =
      [EvPop k; EvPop new_value;
       EvGetStorage (current_target (message evm)) (to_be_bytes32 k)
                    (slot_value evm k);
       EvCharge (store_cost GAS_STORAGE_SET GAS_STORAGE_UPDATE new_value
                            (slot_value evm k))] ∧
    writes (out_trace (sstore evm)) = [] ∧
    refunds (out_trace (sstore evm)) = [] ∧
    state (env (out_evm (sstore evm))) = state (env evm) ∧
    slot_value (out_evm (sstore evm)) k = slot_value evm k ∧
    refund_counter (out_evm (sstore evm)) = refund_counter evm.
Proof.
  intros Hoog.
  destruct (sstore_out_of_gas_inv _ Hoog) as (k & new_value & rest & Hs & Hlt).
  exists k, new_value, rest.
  rewrite (sstore_out_of_gas _ _ _ _ Hs Hlt).
  split; [exact Hs|]. repeat split; reflexivity.
Qed.

(** Clearing a slot leaves it reading zero, and a store of zero into a
    slot that reads zero grants nothing: clearing again is never refunded
    again. *)
Lemma sstore_zero_clears (evm : Evm) (k : U256) (rest : list U256) :
  stack evm = k :: 0 :: rest →
  out_res (sstore evm) = Ok tt →
  slot_value (out_evm (sstore evm)) k = 0.
Proof.
  intros Hs Hok. pose proof (sstore_ok_inv _ _ _ _ Hs Hok) as Hge.
  rewrite (sstore_ok _ _ _ _ Hs Hge). unfold slot_value.
  cbn [out_evm env state message]. apply get_set_storage_eq.
Qed.

Lemma sstore_cleared_slot_no_refund (evm : Evm) (k : U256) (rest : list U256) :
  stack evm = k :: 0 :: rest →
  slot_value evm k = 0 →
  out_res (sstore evm) = Ok tt →
  refund_counter (out_evm (sstore evm)) = refund_counter evm ∧
  refunds (out_trace (sstore evm)) = [].
Proof.
  intros Hs Hz Hok. pose proof (sstore_ok_inv _ _ _ _ Hs Hok) as Hge.
  rewrite (sstore_ok _ _ _ _ Hs Hge). cbn [out_evm out_trace refund_counter].
  rewrite Hz. cbn. split; [lia | reflexivity].
Qed.

(** *** The contract of [sload] *)

(** C4.  On a frame within the depth limit, with a word [k] on top of
    the stack and at least [GAS_SLOAD] gas, [sload] pops [k], takes its
    32-byte big-endian image as the key, charges [GAS_SLOAD], reads the
    slot of the current target (zero when unset), pushes the value and
    advances [pc] by one, in that order; [refund_counter], the message
    and the world state are untouched. *)
Theorem sload_contract (evm : Evm) (k : U256) (rest : list U256) :
  stack evm = k :: rest →
  GAS_SLOAD ≤ gas_left evm →
  stack_in_bounds evm →
  let target := current_target (message evm) in
  let key := to_be_bytes32 k in
  let value := get_storage (state (env evm)) target key in
  sload evm =
    mkOutcome
      (mkEvm (value :: rest) (pc evm + 1) (gas_left evm - GAS_SLOAD)
             (refund_counter evm) (message evm) (env evm))
      [EvPop k; EvCharge GAS_SLOAD; EvGetStorage target key value;
       EvPush value; EvPc]
      (Ok tt) ∧
  length key = 32%nat ∧
  from_be_bytes key = k mod U256_CEIL ∧
  (state (env evm) !! (target, key) = None → value = 0).
Proof.
  intros Hs Hg Hb target key value. unfold stack_in_bounds in Hb.
  rewrite Hs in Hb. cbn [length] in Hb.
  split; [|split; [|split]].
  - apply sload_ok; [exact Hs | exact Hg | lia].
  - apply length_to_be_bytes32.
  - apply from_to_be_bytes32.
  - intros Hnone. subst value. unfold get_storage. now rewrite Hnone.
Qed.

(** C5.  A store of [v] under the key [k] that completes, followed at
    once by a load of the same key on the frame it leaves (the key being
    the next word on the stack, gas sufficing), pushes [v]. *)
Theorem sstore_then_sload (evm : Evm) (k v : U256) (rest : list U256) :
  stack evm = k :: v :: k :: rest →
  stack_in_bounds evm →
  out_res (sstore evm) = Ok tt →
  GAS_SLOAD ≤ gas_left (out_evm (sstore evm)) →
  out_res (sload (out_evm (sstore evm))) = Ok tt ∧
  stack (out_evm (sload (out_evm (sstore evm)))) = v :: rest.
Proof.
  intros Hs Hb Hok Hg. unfold stack_in_bounds in Hb.
  rewrite Hs in Hb. cbn [length] in Hb.
  pose proof (sstore_ok_inv _ _ _ _ Hs Hok) as Hge.
  rewrite (sstore_ok _ _ _ _ Hs Hge) in Hg |- *. cbn [out_evm] in Hg |- *.
  erewrite sload_ok; [| reflexivity | exact Hg | cbn [length]; lia].
  cbn [out_res out_evm stack]. split; [reflexivity|].
  f_equal. unfold slot_value. cbn [env state message].
  apply get_set_storage_eq.
Qed.

(** *** Stack underflow *)

(** C6.  With fewer than two words on the stack [sstore] fails with
    [StackUnderflowError]; no gas was charged and no slot was read or
    written before the failure, and [gas_left], [refund_counter], [pc]
    and the world state are as before. *)
Theorem sstore_stack_underflow (evm : Evm) :
  (length (stack evm) < 2)%nat →
  out_res (sstore evm) = Raise StackUnderflowError ∧
  charges (out_trace (sstore evm)) = [] ∧
  reads (out_trace (sstore evm)) = [] ∧
  writes (out_trace (sstore evm)) = [] ∧
  gas_left (out_evm (sstore evm)) = gas_left evm ∧
  refund_counter (out_evm (sstore evm)) = refund_counter evm ∧
  pc (out_evm (sstore evm)) = pc evm ∧
  env (out_evm (sstore evm)) = env evm.
Proof.
  intros Hlen.
  destruct (stack evm) as [|k [|v rest]] eqn:Hs.
  - rewrite (sstore_empty _ Hs). repeat split; reflexivity.
  - rewrite (sstore_single _ _ Hs). repeat split; reflexivity.
  - cbn [length] in Hlen. lia.
Qed.

(** C7.  On an empty stack [sload] fails with [StackUnderflowError]
    having done nothing: the frame it leaves is the frame it was given
    ([gas_left], stack, [pc], [refund_counter], world state). *)
Theorem sload_stack_underflow (evm : Evm) :
  stack evm = [] →
  out_res (sload evm) = Raise StackUnderflowError ∧
  out_trace (sload evm) = [] ∧
  out_evm (sload evm) = evm.
Proof.
  intros Hs. rewrite (sload_empty _ Hs). repeat split; reflexivity.
Qed.

(** C10.  On a stack of exactly one word, the [StackUnderflowError] of
    [sstore] comes from its second pop: the first pop has happened, and
    the frame that the error leaves has an empty stack, while gas, the
    world state, [refund_counter] and [pc] are as before. *)
Theorem sstore_single_word_stack_mutated (evm : Evm) (k : U256) :
  stack evm = [k] →
  out_res (sstore evm) = Raise StackUnderflowError ∧
  out_trace (sstore evm) = [EvPop k] ∧
  stack (out_evm (sstore evm)) = [] ∧
  stack (out_evm (sstore evm)) ≠ stack evm ∧
  gas_left (out_evm (sstore evm)) = gas_left evm ∧
  env (out_evm (sstore evm)) = env evm ∧
  refund_counter (out_evm (sstore evm)) = refund_counter evm ∧
  pc (out_evm (sstore evm)) = pc evm.
Proof.
  intros Hs. rewrite (sstore_single _ _ Hs). cbn [out_res out_trace out_evm].
  rewrite Hs. cbn [stack gas_left env refund_counter pc].
  repeat split; try reflexivity. discriminate.
Qed.

(** *** Every run, whatever its outcome *)

Lemma sload_refund_counter (evm : Evm) :
  refund_counter (out_evm (sload evm)) = refund_counter evm.
Proof.
  destruct (stack evm) as [|k rest] eqn:Hs.
  { now rewrite (sload_empty _ Hs). }
  destruct (N.lt_ge_cases (gas_left evm) GAS_SLOAD) as [Hlt|Hge].
  { now rewrite (sload_out_of_gas _ _ _ Hs Hlt). }
  destruct (le_lt_dec STACK_DEPTH_LIMIT (length rest)) as [Hov|Hin].
  - now rewrite (sload_overflow _ _ _ Hs Hge Hov).
  - now rewrite (sload_ok _ _ _ Hs Hge Hin).
Qed.

Lemma sstore_refund_monotone (evm : Evm) :
  refund_counter evm ≤ refund_counter (out_evm (sstore evm)).
Proof.
  destruct (stack evm) as [|k [|v rest]] eqn:Hs.
  { now rewrite (sstore_empty _ Hs). }
  { now rewrite (sstore_single _ _ Hs). }
  destruct (N.lt_ge_cases (gas_left evm)
              (store_cost GAS_STORAGE_SET GAS_STORAGE_UPDATE v
                          (slot_value evm k))) as [Hlt|Hge].
  - now rewrite (sstore_out_of_gas _ _ _ _ Hs Hlt).
  - rewrite (sstore_ok _ _ _ _ Hs Hge). cbn [out_evm refund_counter]. lia.
Qed.

(** C8.  No run of [sload] or [sstore], whether it completes or fails,
    lowers [refund_counter]: [sload] leaves it as it is and [sstore]
    can only raise it. *)
Theorem refund_counter_never_decremented (evm : Evm) :
  refund_counter (out_evm (sload evm)) = refund_counter evm ∧
  refund_counter evm ≤ refund_counter (out_evm (sstore evm)).
Proof.
  split; [apply sload_refund_counter | apply sstore_refund_monotone].
Qed.

(** *** Determinism *)

Lemma same_frame_refl (evm : Evm) : same_frame evm evm.
Proof. unfold same_frame. repeat split. Qed.

Lemma same_frame_slot_value (e1 e2 : Evm) (k : U256) :
  same_frame e1 e2 → slot_value e1 k = slot_value e2 k.
Proof.
  intros (_ & _ & _ & _ & Ht & Hc). unfold slot_value. rewrite Ht. apply Hc.
Qed.

Ltac same_done :=
  unfold same_outcome, same_frame;
  cbn [out_evm out_trace out_res stack pc gas_left refund_counter message
       env state];
  repeat match goal with
         | H : _ = _ |- _ => rewrite H
         end;
  repeat split; auto using same_contents_set_storage.

Lemma sload_same_outcome (e1 e2 : Evm) :
  same_frame e1 e2 → same_outcome (sload e1) (sload e2).
Proof.
  intros H. pose proof H as (Hst & Hpc & Hg & Hr & Ht & Hc).
  destruct (stack e2) as [|k rest] eqn:Hs2.
  { rewrite (sload_empty _ Hst), (sload_empty _ Hs2). now split. }
  pose proof (same_frame_slot_value _ _ k H) as Hsv.
  destruct (N.lt_ge_cases (gas_left e2) GAS_SLOAD) as [Hlt|Hge].
  { rewrite (sload_out_of_gas e2 _ _ Hs2 Hlt).
    rewrite <- Hg in Hlt. rewrite (sload_out_of_gas e1 _ _ Hst Hlt).
    same_done. }
  destruct (le_lt_dec STACK_DEPTH_LIMIT (length rest)) as [Hov|Hin].
  - rewrite (sload_overflow e2 _ _ Hs2 Hge Hov).
    rewrite <- Hg in Hge. rewrite (sload_overflow e1 _ _ Hst Hge Hov).
    same_done.
  - rewrite (sload_ok e2 _ _ Hs2 Hge Hin).
    rewrite <- Hg in Hge. rewrite (sload_ok e1 _ _ Hst Hge Hin).
    same_done.
Qed.

Lemma sstore_same_outcome (e1 e2 : Evm) :
  same_frame e1 e2 → same_outcome (sstore e1) (sstore e2).
Proof.
  intros H. pose proof H as (Hst & Hpc & Hg & Hr & Ht & Hc).
  destruct (stack e2) as [|k [|v rest]] eqn:Hs2.
  { rewrite (sstore_empty _ Hst), (sstore_empty _ Hs2). now split. }
  { rewrite (sstore_single _ _ Hst), (sstore_single _ _ Hs2). same_done. }
  pose proof (same_frame_slot_value _ _ k H) as Hsv.
  destruct (N.lt_ge_cases (gas_left e2)
              (store_cost GAS_STORAGE_SET GAS_STORAGE_UPDATE v
                          (slot_value e2 k))) as [Hlt|Hge].
  - rewrite (sstore_out_of_gas e2 _ _ _ Hs2 Hlt).
    rewrite <- Hg, <- Hsv in Hlt.
    rewrite (sstore_out_of_gas e1 _ _ _ Hst Hlt). same_done.
  - rewrite (sstore_ok e2 _ _ _ Hs2 Hge).
    rewrite <- Hg, <- Hsv in Hge.
    rewrite (sstore_ok e1 _ _ _ Hst Hge). same_done.
Qed.

(** C9.  [sload] and [sstore] are functions of the frame and of the
    contents of the world state: two runs from frames that agree on the
    stack, [pc], [gas_left], [refund_counter] and the current target,
    over states with the same contents, end with the same result (normal
    or the same exception), the same effects in the same order, the same
    stack, [pc], [gas_left] and [refund_counter], and states with the
    same contents. *)
Theorem storage_instructions_deterministic (e1 e2 : Evm) :
  same_frame e1 e2 →
  same_outcome (sload e1) (sload e2) ∧
  same_outcome (sstore e1) (sstore e2).
Proof.
  intros H. split; [now apply sload_same_outcome | now apply sstore_same_outcome].
Qed.

End Properties.

(** ** Overwriting a slot *)

Lemma set_storage_twice (st : State) (a : Address) (k : Bytes) (v1 v2 : U256) :
  set_storage (set_storage st a k v1) a k v2 = set_storage st a k v2.
Proof.
  unfold set_storage.
  destruct (v1 =? 0), (v2 =? 0).
  - apply delete_delete_eq.
  - apply insert_delete_eq.
  - apply delete_insert_eq.
  - apply insert_insert_eq.
Qed.

Lemma set_storage_same_contents (st : State) (a : Address) (k : Bytes) :
  same_contents (set_storage st a k (get_storage st a k)) st.
Proof.
  intros a' k'.
  destruct (decide ((a, k) = (a', k'))) as [E|Hne].
  - injection E as <- <-. apply get_set_storage_eq.
  - now apply get_set_storage_ne.
Qed.

(** ** Further properties of the two instructions *)

Section Behaviour.

Variables GAS_SLOAD GAS_STORAGE_SET GAS_STORAGE_UPDATE
          GAS_STORAGE_CLEAR_REFUND : Uint.

Local Abbreviation sload := (sload GAS_SLOAD).
Local Abbreviation sstore :=
  (sstore GAS_STORAGE_SET GAS_STORAGE_UPDATE GAS_STORAGE_CLEAR_REFUND).
Local Abbreviation cost := (store_cost GAS_STORAGE_SET GAS_STORAGE_UPDATE).

(** Every run of [sload] is one of four. *)
Lemma sload_cases (evm : Evm) :
  (stack evm = [] ∧
   sload evm = mkOutcome evm [] (Raise StackUnderflowError)) ∨
  (∃ k rest, stack evm = k :: rest ∧ gas_left evm < GAS_SLOAD ∧
     sload evm =
       mkOutcome
         (mkEvm rest (pc evm) 0 (refund_counter evm) (message evm) (env evm))
         [EvPop k; EvCharge GAS_SLOAD] (Raise OutOfGasError)) ∨
  (∃ k rest, stack evm = k :: rest ∧ GAS_SLOAD ≤ gas_left evm ∧
     (STACK_DEPTH_LIMIT ≤ length rest)%nat ∧
     sload evm =
       mkOutcome
         (mkEvm rest (pc evm) (gas_left evm - GAS_SLOAD) (refund_counter evm)
                (message evm) (env evm))
         [EvPop k; EvCharge GAS_SLOAD;
          EvGetStorage (current_target (message evm)) (to_be_bytes32 k)
                       (slot_value evm k)]
         (Raise StackOverflowError)) ∨
  (∃ k rest, stack evm = k :: rest ∧ GAS_SLOAD ≤ gas_left evm ∧
     (length rest < STACK_DEPTH_LIMIT)%nat ∧
     sload evm =
       mkOutcome
         (mkEvm (slot_value evm k :: rest) (pc evm + 1)
                (gas_left evm - GAS_SLOAD) (refund_counter evm)
                (message evm) (env evm))
         [EvPop k; EvCharge GAS_SLOAD;
          EvGetStorage (current_target (message evm)) (to_be_bytes32 k)
                       (slot_value evm k);
          EvPush (slot_value evm k); EvPc]
         (Ok tt)).
Proof.
  destruct (stack evm) as [|k rest] eqn:Hs.
  { left. split; [reflexivity|]. now apply sload_empty. }
  right.
  destruct (N.lt_ge_cases (gas_left evm) GAS_SLOAD) as [Hlt|Hge].
  { left. exists k, rest. repeat split; [exact Hlt|]. now apply sload_out_of_gas. }
  right.
  destruct (le_lt_dec STACK_DEPTH_LIMIT (length rest)) as [Hov|Hin].
  - left. exists k, rest. repeat split; [exact Hge | exact Hov |].
    now apply sload_overflow.
  - right. exists k, rest. repeat split; [exact Hge | exact Hin |].
    now apply sload_ok.
Qed.

(** Every run of [sstore] is one of four. *)
Lemma sstore_cases (evm : Evm) :
  (stack evm = [] ∧
   sstore evm = mkOutcome evm [] (Raise StackUnderflowError)) ∨
  (∃ k, stack evm = [k] ∧
     sstore evm =
       mkOutcome
         (mkEvm [] (pc evm) (gas_left evm) (refund_counter evm) (message evm)
                (env evm))
         [EvPop k] (Raise StackUnderflowError)) ∨
  (∃ k v rest, stack evm = k :: v :: rest ∧
     gas_left evm < cost v (slot_value evm k) ∧
     sstore evm =
       mkOutcome
         (mkEvm rest (pc evm) 0 (refund_counter evm) (message evm) (env evm))
         [EvPop k; EvPop v;
          EvGetStorage (current_target (message evm)) (to_be_bytes32 k)
                       (slot_value evm k);
          EvCharge (cost v (slot_value evm k))]
         (Raise OutOfGasError)) ∨
  (∃ k v rest, stack evm = k :: v :: rest ∧
     cost v (slot_value evm k) ≤ gas_left evm ∧
     sstore evm =
       mkOutcome
         (mkEvm rest (pc evm + 1)
            (gas_left evm - cost v (slot_value evm k))
            (refund_counter evm
             + store_refund GAS_STORAGE_CLEAR_REFUND v (slot_value evm k))
            (message evm)
            (mkEnvironment
               (set_storage (state (env evm)) (current_target (message evm))
                            (to_be_bytes32 k) v)))
         ([EvPop k; EvPop v;
           EvGetStorage (current_target (message evm)) (to_be_bytes32 k)
                        (slot_value evm k);
           EvCharge (cost v (slot_value evm k))]
          ++ (if (v =? 0) && negb (slot_value evm k =? 0)
              then [EvRefund GAS_STORAGE_CLEAR_REFUND] else [])
          ++ [EvSetStorage (current_target (message evm)) (to_be_bytes32 k) v;
              EvPc])
         (Ok tt)).
Proof.
  destruct (stack evm) as [|k [|v rest]] eqn:Hs.
  { left. split; [reflexivity|]. now apply sstore_empty. }
  { right. left. exists k. split; [reflexivity|]. now apply sstore_single. }
  right. right.
  destruct (N.lt_ge_cases (gas_left evm) (cost v (slot_value evm k)))
    as [Hlt|Hge].
  - left. exists k, v, rest. repeat split; [exact Hlt|].
    now apply sstore_out_of_gas.
  - right. exists k, v, rest. repeat split; [exact Hge|].
    now apply sstore_ok.
Qed.

Ltac by_sload_cases evm :=
  let Hrun := fresh "Hrun" in
  destruct (sload_cases evm)
    as [[Hs Hrun] | [(k & rest & Hs & Hlt & Hrun)
       | [(k & rest & Hs & Hge & Hov & Hrun)
         | (k & rest & Hs & Hge & Hin & Hrun)]]];
  rewrite Hrun in *; clear Hrun;
  cbn [completed out_res out_evm out_trace stack pc gas_left refund_counter
       message env state] in *;
  rewrite ?Hs in *.

Ltac by_sstore_cases evm :=
  let Hrun := fresh "Hrun" in
  destruct (sstore_cases evm)
    as [[Hs Hrun] | [(k & Hs & Hrun)
       | [(k & v & rest & Hs & Hlt & Hrun)
         | (k & v & rest & Hs & Hge & Hrun)]]];
  rewrite Hrun in *; clear Hrun;
  cbn [completed out_res out_evm out_trace stack pc gas_left refund_counter
       message env state] in *;
  rewrite ?Hs in *.

(** *** When the instructions complete and how they fail *)

(** X1.  On a frame within the depth limit [sload] completes exactly when
    the stack is not empty and [gas_left] is at least [GAS_SLOAD]; it
    raises [StackUnderflowError] exactly on the empty stack,
    [OutOfGasError] exactly on a non-empty stack with less gas, and never
    [StackOverflowError]. *)
Theorem sload_outcome_iff (evm : Evm) :
  stack_in_bounds evm →
  (out_res (sload evm) = Ok tt ↔ stack evm ≠ [] ∧ GAS_SLOAD ≤ gas_left evm) ∧
  (out_res (sload evm) = Raise StackUnderflowError ↔ stack evm = []) ∧
  (out_res (sload evm) = Raise OutOfGasError ↔
     stack evm ≠ [] ∧ gas_left evm < GAS_SLOAD) ∧
  out_res (sload evm) ≠ Raise StackOverflowError.
Proof.
  unfold stack_in_bounds. intros Hb.
  by_sload_cases evm; cbn [length] in Hb;
    repeat split; try discriminate; try congruence; try lia;
    intros; repeat match goal with H : _ ∧ _ |- _ => destruct H end;
    try discriminate; try congruence; try lia.
Qed.

(** X2.  With two operands on the stack [sstore] completes exactly when
    [gas_left] covers the cost of this particular store and raises
    [OutOfGasError] exactly when it does not; so a store that is not a
    fresh write completes on [GAS_STORAGE_UPDATE] gas, whatever
    [GAS_STORAGE_SET] is. *)
Theorem sstore_outcome_iff (evm : Evm) (k v : U256) (rest : list U256) :
  stack evm = k :: v :: rest →
  (out_res (sstore evm) = Ok tt ↔
     store_cost GAS_STORAGE_SET GAS_STORAGE_UPDATE v (slot_value evm k)
       ≤ gas_left evm) ∧
  (out_res (sstore evm) = Raise OutOfGasError ↔
     gas_left evm <
       store_cost GAS_STORAGE_SET GAS_STORAGE_UPDATE v (slot_value evm k)) ∧
  (¬ (v ≠ 0 ∧ slot_value evm k = 0) →
     GAS_STORAGE_UPDATE ≤ gas_left evm → out_res (sstore evm) = Ok tt).
Proof.
  intros Hs0.
  assert (Hupd : ¬ (v ≠ 0 ∧ slot_value evm k = 0) →
                 GAS_STORAGE_UPDATE ≤ gas_left evm →
                 cost v (slot_value evm k) ≤ gas_left evm).
  { intros Hn Hg. now rewrite store_cost_update. }
  destruct (N.lt_ge_cases (gas_left evm) (cost v (slot_value evm k)))
    as [Hlt|Hge].
  - rewrite (sstore_out_of_gas _ _ _ _ _ _ _ Hs0 Hlt). cbn [out_res].
    repeat split; try discriminate; try lia; intros; try assumption;
      try (exfalso; pose proof (Hupd ltac:(assumption) ltac:(assumption)); lia).
  - rewrite (sstore_ok _ _ _ _ _ _ _ Hs0 Hge). cbn [out_res].
    repeat split; try discriminate; try lia; intros; try assumption.
Qed.

(** X3.  A load on a non-empty stack with less than [GAS_SLOAD] gas fails
    with [OutOfGasError] after the key was popped: the slot is not read,
    nothing is pushed, [pc], [refund_counter] and the world state are as
    before. *)
Theorem sload_out_of_gas_effects (evm : Evm) (k : U256) (rest : list U256) :
  stack evm = k :: rest →
  gas_left evm < GAS_SLOAD →
  out_res (sload evm) = Raise OutOfGasError ∧
  out_trace (sload evm) = [EvPop k; EvCharge GAS_SLOAD] ∧
  reads (out_trace (sload evm)) = [] ∧
  stack (out_evm (sload evm)) = rest ∧
  pc (out_evm (sload evm)) = pc evm ∧
  refund_counter (out_evm (sload evm)) = refund_counter evm ∧
  env (out_evm (sload evm)) = env evm.
Proof.
  intros Hs Hlt. rewrite (sload_out_of_gas _ _ _ _ Hs Hlt).
  repeat split; reflexivity.
Qed.

(** X4.  [sload] only reads: whatever the frame and the outcome, the
    world state and the message of the frame are as before, and no slot
    was written and no refund granted. *)
Theorem sload_read_only (evm : Evm) :
  env (out_evm (sload evm)) = env evm ∧
  message (out_evm (sload evm)) = message evm ∧
  writes (out_trace (sload evm)) = [] ∧
  refunds (out_trace (sload evm)) = [].
Proof. by_sload_cases evm; repeat split; reflexivity. Qed.

(** X5.  [sstore] never raises [StackOverflowError], and it raises
    [StackUnderflowError] exactly when the stack holds fewer than two
    words. *)
Theorem sstore_error_kinds (evm : Evm) :
  out_res (sstore evm) ≠ Raise StackOverflowError ∧
  (out_res (sstore evm) = Raise StackUnderflowError ↔
     (length (stack evm) < 2)%nat).
Proof.
  by_sstore_cases evm; cbn [length];
    repeat split; try discriminate; try lia; intros; try reflexivity.
Qed.

(** X6.  A failing [sstore], whatever the failure, leaves the world
    state, [refund_counter], [pc] and the message as they were; nothing
    was written and nothing refunded. *)
Theorem sstore_failure_atomic (evm : Evm) :
  completed (sstore evm) = false →
  env (out_evm (sstore evm)) = env evm ∧
  refund_counter (out_evm (sstore evm)) = refund_counter evm ∧
  pc (out_evm (sstore evm)) = pc evm ∧
  message (out_evm (sstore evm)) = message evm ∧
  writes (out_trace (sstore evm)) = [] ∧
  refunds (out_trace (sstore evm)) = [].
Proof.
  intros Hfail.
  by_sstore_cases evm; try discriminate; repeat split; reflexivity.
Qed.

(** *** Program counter, gas and stack on every path *)

(** X7.  [pc] advances by exactly one when an instruction completes and
    stays where it was on every failure. *)
Theorem pc_advances_iff_completed (evm : Evm) :
  pc (out_evm (sload evm))
  = pc evm + (if completed (sload evm) then 1 else 0) ∧
  pc (out_evm (sstore evm))
  = pc evm + (if completed (sstore evm) then 1 else 0).
Proof.
  split.
  - by_sload_cases evm; lia.
  - by_sstore_cases evm; lia.
Qed.

(** X8.  Neither instruction ever raises [gas_left], and a load that
    completes has lowered it by exactly [GAS_SLOAD]. *)
Theorem gas_left_never_increases (evm : Evm) :
  gas_left (out_evm (sload evm)) ≤ gas_left evm ∧
  gas_left (out_evm (sstore evm)) ≤ gas_left evm ∧
  (completed (sload evm) = true →
     gas_left (out_evm (sload evm)) + GAS_SLOAD = gas_left evm).
Proof.
  split; [|split].
  - by_sload_cases evm; lia.
  - by_sstore_cases evm; lia.
  - by_sload_cases evm; intros; try discriminate; lia.
Qed.

(** X9.  Neither instruction ever deepens the stack.  A load that
    completes replaces the top word and leaves the words below it alone; a
    store that completes removes exactly the two top words. *)
Theorem stack_effect (evm : Evm) :
  (length (stack (out_evm (sload evm))) ≤ length (stack evm))%nat ∧
  (length (stack (out_evm (sstore evm))) ≤ length (stack evm))%nat ∧
  (completed (sload evm) = true →
     length (stack (out_evm (sload evm))) = length (stack evm) ∧
     drop 1 (stack (out_evm (sload evm))) = drop 1 (stack evm)) ∧
  (completed (sstore evm) = true →
     stack (out_evm (sstore evm)) = drop 2 (stack evm)).
Proof.
  split; [|split; [|split]].
  - by_sload_cases evm; cbn [length]; lia.
  - by_sstore_cases evm; cbn [length]; lia.
  - by_sload_cases evm; intros; try discriminate. now split.
  - by_sstore_cases evm; intros; try discriminate. reflexivity.
Qed.

(** X10.  The depth limit is an invariant of both instructions, on every
    path. *)
Theorem stack_in_bounds_preserved (evm : Evm) :
  stack_in_bounds evm →
  stack_in_bounds (out_evm (sload evm)) ∧
  stack_in_bounds (out_evm (sstore evm)).
Proof.
  unfold stack_in_bounds. intros Hb. split.
  - by_sload_cases evm; cbn [length] in *; lia.
  - by_sstore_cases evm; cbn [length] in *; lia.
Qed.

(** *** What a completed store leaves behind *)

Lemma sstore_completed_effect (evm : Evm) (k v : U256) (rest : list U256) :
  stack evm = k :: v :: rest →
  out_res (sstore evm) = Ok tt →
  out_evm (sstore evm) =
    mkEvm rest (pc evm + 1) (gas_left evm - cost v (slot_value evm k))
      (refund_counter evm
       + store_refund GAS_STORAGE_CLEAR_REFUND v (slot_value evm k))
      (message evm)
      (mkEnvironment
         (set_storage (state (env evm)) (current_target (message evm))
                      (to_be_bytes32 k) v)) ∧
  cost v (slot_value evm k) ≤ gas_left evm ∧
  charges (out_trace (sstore evm)) = [cost v (slot_value evm k)] ∧
  refunds (out_trace (sstore evm)) =
    (if (v =? 0) && negb (slot_value evm k =? 0)
     then [GAS_STORAGE_CLEAR_REFUND] else []) ∧
  writes (out_trace (sstore evm)) =
    [(current_target (message evm), to_be_bytes32 k, v)].
Proof.
  intros Hs Hok. pose proof (sstore_ok_inv _ _ _ _ _ _ _ Hs Hok) as Hge.
  rewrite (sstore_ok _ _ _ _ _ _ _ Hs Hge). cbn [out_evm out_trace].
  split; [reflexivity|]. split; [exact Hge|].
  now destruct ((v =? 0) && negb (slot_value evm k =? 0)).
Qed.

(** X11.  A store that completes writes one slot: the slot of the current
    target under the key reads the new value afterwards, and every other
    slot of every contract reads what it read before. *)
Theorem sstore_writes_one_slot (evm : Evm) (k v : U256) (rest : list U256) :
  stack evm = k :: v :: rest →
  out_res (sstore evm) = Ok tt →
  writes (out_trace (sstore evm))
  = [(current_target (message evm), to_be_bytes32 k, v)] ∧
  slot_value (out_evm (sstore evm)) k = v ∧
  ∀ (a : Address) (key : Bytes),
    (a, key) ≠ (current_target (message evm), to_be_bytes32 k) →
    get_storage (state (env (out_evm (sstore evm)))) a key
    = get_storage (state (env evm)) a key.
Proof.
  intros Hs Hok.
  destruct (sstore_completed_effect _ _ _ _ Hs Hok) as (He & _ & _ & _ & Hw).
  rewrite He. split; [exact Hw|]. unfold slot_value.
  cbn [env state message]. split.
  - apply get_set_storage_eq.
  - intros a key Hne. apply get_set_storage_ne. congruence.
Qed.

(** *** Two instructions in a row *)

(** X12.  Keys do not alias: after a store under the 256-bit word [k]
    that completes, a load of a different 256-bit word [k'] pushes what
    the slot of [k'] held before the store. *)
Theorem sstore_then_sload_other_key (evm : Evm) (k v k' : U256)
    (rest : list U256) :
  stack evm = k :: v :: k' :: rest →
  is_u256 k → is_u256 k' → k ≠ k' →
  stack_in_bounds evm →
  out_res (sstore evm) = Ok tt →
  GAS_SLOAD ≤ gas_left (out_evm (sstore evm)) →
  out_res (sload (out_evm (sstore evm))) = Ok tt ∧
  stack (out_evm (sload (out_evm (sstore evm)))) = slot_value evm k' :: rest.
Proof.
  intros Hs Hk Hk' Hne Hb Hok Hg. unfold stack_in_bounds in Hb.
  rewrite Hs in Hb. cbn [length] in Hb.
  destruct (sstore_completed_effect _ _ _ _ Hs Hok) as (He & _).
  rewrite He in Hg |- *.
  erewrite sload_ok; [| reflexivity | exact Hg | cbn [length]; lia].
  cbn [out_res out_evm stack]. split; [reflexivity|].
  f_equal. unfold slot_value. cbn [env state message].
  apply get_set_storage_ne. intros E. apply Hne.
  apply to_be_bytes32_inj; [exact Hk | exact Hk' | congruence].
Qed.

(** X13.  The last store wins: after two stores under the same key that
    both complete, the world state is the one a single store of the second
    value would have left, the four operands are gone and [pc] has
    advanced by two. *)
Theorem sstore_overwrite (evm : Evm) (k v1 v2 : U256) (rest : list U256) :
  stack evm = k :: v1 :: k :: v2 :: rest →
  out_res (sstore evm) = Ok tt →
  out_res (sstore (out_evm (sstore evm))) = Ok tt →
  state (env (out_evm (sstore (out_evm (sstore evm)))))
  = set_storage (state (env evm)) (current_target (message evm))
                (to_be_bytes32 k) v2 ∧
  slot_value (out_evm (sstore (out_evm (sstore evm)))) k = v2 ∧
  stack (out_evm (sstore (out_evm (sstore evm)))) = rest ∧
  pc (out_evm (sstore (out_evm (sstore evm)))) = pc evm + 2.
Proof.
  intros Hs Hok1 Hok2.
  destruct (sstore_completed_effect _ _ _ _ Hs Hok1) as (He1 & _).
  assert (Hs1 : stack (out_evm (sstore evm)) = k :: v2 :: rest)
    by now rewrite He1.
  destruct (sstore_completed_effect _ _ _ _ Hs1 Hok2) as (He2 & _).
  rewrite He2. unfold slot_value. cbn [env state stack pc message].
  rewrite He1. cbn [env state pc message].
  rewrite set_storage_twice.
  repeat split; [apply get_set_storage_eq | lia].
Qed.

(** X14.  Storing the value a slot already holds: when a completed store
    of [v] is followed by a second store of [v] under the same key, the
    second is charged [GAS_STORAGE_UPDATE], is refunded nothing and leaves
    the world state and [refund_counter] as the first left them. *)
Theorem sstore_same_value_again (evm : Evm) (k v : U256) (rest : list U256) :
  stack evm = k :: v :: k :: v :: rest →
  out_res (sstore evm) = Ok tt →
  out_res (sstore (out_evm (sstore evm))) = Ok tt →
  charges (out_trace (sstore (out_evm (sstore evm)))) = [GAS_STORAGE_UPDATE] ∧
  refunds (out_trace (sstore (out_evm (sstore evm)))) = [] ∧
  state (env (out_evm (sstore (out_evm (sstore evm)))))
  = state (env (out_evm (sstore evm))) ∧
  refund_counter (out_evm (sstore (out_evm (sstore evm))))
  = refund_counter (out_evm (sstore evm)).
Proof.
  intros Hs Hok1 Hok2.
  destruct (sstore_completed_effect _ _ _ _ Hs Hok1) as (He1 & _).
  assert (Hs1 : stack (out_evm (sstore evm)) = k :: v :: rest)
    by now rewrite He1.
  assert (Hcur : slot_value (out_evm (sstore evm)) k = v).
  { rewrite He1. unfold slot_value. cbn [env state message].
    apply get_set_storage_eq. }
  destruct (sstore_completed_effect _ _ _ _ Hs1 Hok2)
    as (He2 & _ & Hc2 & Hr2 & _).
  rewrite Hcur in *.
  rewrite store_cost_update in Hc2 by (intros [Hn Hz]; contradiction).
  rewrite store_refund_none in He2 by (intros [Hz Hn]; contradiction).
  assert (Hno : (v =? 0) && negb (v =? 0) = false) by now destruct (v =? 0).
  rewrite Hno in Hr2.
  split; [exact Hc2|]. split; [exact Hr2|].
  rewrite He2. cbn [env state refund_counter]. split; [|lia].
  rewrite He1. cbn [env state message]. apply set_storage_twice.
Qed.

(** X15.  Writing a fresh slot and clearing it again: when a completed
    store of a nonzero value into a slot that reads zero is followed by a
    completed store of zero under the same key, the first is charged
    [GAS_STORAGE_SET], the second [GAS_STORAGE_UPDATE] and is refunded
    [GAS_STORAGE_CLEAR_REFUND] once, and the world state has the contents
    it had at the start. *)
Theorem sstore_set_then_clear (evm : Evm) (k v : U256) (rest : list U256) :
  stack evm = k :: v :: k :: 0 :: rest →
  v ≠ 0 → slot_value evm k = 0 →
  out_res (sstore evm) = Ok tt →
  out_res (sstore (out_evm (sstore evm))) = Ok tt →
  charges (out_trace (sstore evm)) = [GAS_STORAGE_SET] ∧
  charges (out_trace (sstore (out_evm (sstore evm)))) = [GAS_STORAGE_UPDATE] ∧
  refund_counter (out_evm (sstore (out_evm (sstore evm))))
  = refund_counter evm + GAS_STORAGE_CLEAR_REFUND ∧
  gas_left (out_evm (sstore (out_evm (sstore evm))))
    + GAS_STORAGE_SET + GAS_STORAGE_UPDATE = gas_left evm ∧
  same_contents (state (env (out_evm (sstore (out_evm (sstore evm))))))
                (state (env evm)).
Proof.
  intros Hs Hv Hz Hok1 Hok2.
  destruct (sstore_completed_effect _ _ _ _ Hs Hok1)
    as (He1 & Hge1 & Hc1 & _).
  assert (Hs1 : stack (out_evm (sstore evm)) = k :: 0 :: rest)
    by now rewrite He1.
  assert (Hcur : slot_value (out_evm (sstore evm)) k = v).
  { rewrite He1. unfold slot_value. cbn [env state message].
    apply get_set_storage_eq. }
  destruct (sstore_completed_effect _ _ _ _ Hs1 Hok2)
    as (He2 & Hge2 & Hc2 & _).
  rewrite Hcur in *. rewrite Hz in *.
  rewrite store_cost_set in * by done.
  rewrite (store_cost_update _ _ 0 v) in * by (intros [Hn _]; now apply Hn).
  rewrite (store_refund_none _ v 0) in He1 by (intros [Hn _]; contradiction).
  rewrite (store_refund_clear _ 0 v) in He2 by done.
  split; [exact Hc1|]. split; [exact Hc2|].
  rewrite He2. cbn [refund_counter gas_left env state].
  rewrite He1 in Hge2 |- *. cbn [refund_counter gas_left env state message] in *.
  split; [lia|]. split; [lia|].
  rewrite set_storage_twice.
  unfold slot_value in Hz. rewrite <- Hz at 1.
  apply set_storage_same_contents.
Qed.

End Behaviour.

(** ** The scenarios of the documentation *)

(** Scenario A: 21100 gas, slot 5 unset, key 5 and value 7 on the stack. *)
Example scenario_A :
  let o := sstore G_SET G_RESET G_CLEAR_REFUND (sample_frame [5; 7] 21100 ∅) in
  out_res o = Ok tt ∧ charges (out_trace o) = [20000] ∧
  slot_value (out_evm o) 5 = 7 ∧ refund_counter (out_evm o) = 0 ∧
  gas_left (out_evm o) = 1100 ∧ pc (out_evm o) = 1.
Proof. vm_compute. repeat split; reflexivity. Qed.

(** Scenario B: slot 5 holds 7 and is cleared. *)
Example scenario_B :
  let o := sstore G_SET G_RESET G_CLEAR_REFUND
             (sample_frame [5; 0] 21100 state_slot5_is_7) in
  out_res o = Ok tt ∧ charges (out_trace o) = [5000] ∧
  slot_value (out_evm o) 5 = 0 ∧ refund_counter (out_evm o) = 15000.
Proof. vm_compute. repeat split; reflexivity. Qed.

(** Scenario C: a load on an empty stack. *)
Example scenario_C :
  sload G_LOAD (sample_frame [] 21100 state_slot5_is_7)
  = mkOutcome (sample_frame [] 21100 state_slot5_is_7) []
              (Raise StackUnderflowError).
Proof. reflexivity. Qed.

(** Scenario D: a load with 10 gas. *)
Example scenario_D :
  let o := sload G_LOAD (sample_frame [5] 10 state_slot5_is_7) in
  out_res o = Raise OutOfGasError ∧ stack (out_evm o) = [] ∧
  reads (out_trace o) = [].
Proof. vm_compute. repeat split; reflexivity. Qed.

(** ** The theorems at sample frames *)

Local Abbreviation sstore' := (sstore G_SET G_RESET G_CLEAR_REFUND).
Local Abbreviation sload' := (sload G_LOAD).

Lemma sample_frame_in_bounds (w : U256) (gas : Uint) (st : State) :
  stack_in_bounds (sample_frame [5; 7; w] gas st).
Proof. unfold stack_in_bounds, STACK_DEPTH_LIMIT. cbn. lia. Defined.

Lemma state_explicit_zero_contents : same_contents ∅ state_explicit_zero.
Proof.
  intros a k. unfold get_storage, state_explicit_zero.
  rewrite lookup_empty.
  destruct (decide ((sample_target, to_be_bytes32 9) = (a, k))) as [<-|Hne].
  - now rewrite lookup_singleton_eq.
  - now rewrite lookup_singleton_ne.
Defined.

Lemma sstore_gas_charged_witness :
  stack (sample_frame [5; 7] 21100 ∅) = [5; 7] ∧
  charges (out_trace (sstore' (sample_frame [5; 7] 21100 ∅))) = [G_SET].
Proof.
  split; [reflexivity|].
  destruct (sstore_gas_charged G_SET G_RESET G_CLEAR_REFUND
              (sample_frame [5; 7] 21100 ∅) 5 7 [] eq_refl)
    as (amount & Hcharged & Hset & _).
  rewrite Hcharged. f_equal. apply Hset.
  split; [discriminate | reflexivity].
Defined.

Lemma sstore_refund_counter_witness :
  stack (sample_frame [5; 0] 21100 state_slot5_is_7) = [5; 0] ∧
  out_res (sstore' (sample_frame [5; 0] 21100 state_slot5_is_7)) = Ok tt ∧
  refund_counter (out_evm (sstore' (sample_frame [5; 0] 21100 state_slot5_is_7)))
  = 0 + G_CLEAR_REFUND.
Proof.
  split; [reflexivity|]. split; [vm_compute; reflexivity|].
  apply (sstore_refund_counter G_SET G_RESET G_CLEAR_REFUND
           (sample_frame [5; 0] 21100 state_slot5_is_7) 5 0 []);
    [reflexivity | vm_compute; reflexivity |].
  split; [reflexivity | vm_compute; discriminate].
Defined.

Lemma sstore_out_of_gas_unchanged_witness :
  out_res (sstore' (sample_frame [5; 7] 100 ∅)) = Raise OutOfGasError ∧
  ∃ k new_value rest,
    stack (sample_frame [5; 7] 100 ∅) = k :: new_value :: rest ∧
    writes (out_trace (sstore' (sample_frame [5; 7] 100 ∅))) = [] ∧
    refunds (out_trace (sstore' (sample_frame [5; 7] 100 ∅))) = [] ∧
    state (env (out_evm (sstore' (sample_frame [5; 7] 100 ∅)))) = ∅ ∧
    refund_counter (out_evm (sstore' (sample_frame [5; 7] 100 ∅))) = 0.
Proof.
  split; [vm_compute; reflexivity|].
  destruct (sstore_out_of_gas_unchanged G_SET G_RESET G_CLEAR_REFUND
              (sample_frame [5; 7] 100 ∅))
    as (k & v & rest & Hs & _ & Hw & Hr & Hst & _ & Hrc);
    [vm_compute; reflexivity|].
  exists k, v, rest. repeat split; assumption.
Defined.

Lemma sload_contract_witness :
  stack (sample_frame [5; 7; 9] 100 state_slot5_is_7) = [5; 7; 9] ∧
  G_LOAD ≤ gas_left (sample_frame [5; 7; 9] 100 state_slot5_is_7) ∧
  stack_in_bounds (sample_frame [5; 7; 9] 100 state_slot5_is_7) ∧
  stack (out_evm (sload' (sample_frame [5; 7; 9] 100 state_slot5_is_7)))
  = [7; 7; 9].
Proof.
  split; [reflexivity|]. split; [vm_compute; discriminate|].
  split; [apply sample_frame_in_bounds|].
  destruct (sload_contract G_LOAD
              (sample_frame [5; 7; 9] 100 state_slot5_is_7) 5 [7; 9])
    as [Hrun _];
    [reflexivity | vm_compute; discriminate | apply sample_frame_in_bounds |].
  rewrite Hrun. vm_compute. reflexivity.
Defined.

Lemma sstore_then_sload_witness :
  stack (sample_frame [5; 7; 5] 21100 ∅) = [5; 7; 5] ∧
  stack_in_bounds (sample_frame [5; 7; 5] 21100 ∅) ∧
  out_res (sstore' (sample_frame [5; 7; 5] 21100 ∅)) = Ok tt ∧
  G_LOAD ≤ gas_left (out_evm (sstore' (sample_frame [5; 7; 5] 21100 ∅))) ∧
  out_res (sload' (out_evm (sstore' (sample_frame [5; 7; 5] 21100 ∅)))) = Ok tt ∧
  stack (out_evm (sload' (out_evm (sstore' (sample_frame [5; 7; 5] 21100 ∅)))))
  = [7].
Proof.
  split; [reflexivity|]. split; [apply sample_frame_in_bounds|].
  split; [vm_compute; reflexivity|]. split; [vm_compute; discriminate|].
  apply (sstore_then_sload G_LOAD G_SET G_RESET G_CLEAR_REFUND
           (sample_frame [5; 7; 5] 21100 ∅) 5 7 []);
    [reflexivity | apply sample_frame_in_bounds | vm_compute; reflexivity
    | vm_compute; discriminate].
Defined.

Lemma sstore_stack_underflow_witness :
  (length (stack (sample_frame [5%N] 21100%N ∅)) < 2)%nat ∧
  out_res (sstore' (sample_frame [5] 21100 ∅)) = Raise StackUnderflowError ∧
  gas_left (out_evm (sstore' (sample_frame [5] 21100 ∅))) = 21100.
Proof.
  split; [cbn; lia|].
  destruct (sstore_stack_underflow G_SET G_RESET G_CLEAR_REFUND
              (sample_frame [5] 21100 ∅))
    as (Hres & _ & _ & _ & Hgas & _); [cbn; lia|].
  split; [exact Hres | exact Hgas].
Defined.

Lemma sload_stack_underflow_witness :
  stack (sample_frame [] 21100 state_slot5_is_7) = [] ∧
  out_res (sload' (sample_frame [] 21100 state_slot5_is_7))
  = Raise StackUnderflowError ∧
  out_trace (sload' (sample_frame [] 21100 state_slot5_is_7)) = [] ∧
  out_evm (sload' (sample_frame [] 21100 state_slot5_is_7))
  = sample_frame [] 21100 state_slot5_is_7.
Proof.
  split; [reflexivity|].
  apply (sload_stack_underflow G_LOAD
           (sample_frame [] 21100 state_slot5_is_7)).
  reflexivity.
Defined.

Lemma storage_instructions_deterministic_witness :
  same_frame (sample_frame [9; 0] 21100 ∅)
             (sample_frame [9; 0] 21100 state_explicit_zero) ∧
  same_outcome (sload' (sample_frame [9; 0] 21100 ∅))
               (sload' (sample_frame [9; 0] 21100 state_explicit_zero)) ∧
  same_outcome (sstore' (sample_frame [9; 0] 21100 ∅))
               (sstore' (sample_frame [9; 0] 21100 state_explicit_zero)).
Proof.
  assert (H : same_frame (sample_frame [9; 0] 21100 ∅)
                         (sample_frame [9; 0] 21100 state_explicit_zero)).
  { unfold same_frame. cbn [sample_frame stack pc gas_left refund_counter
                            message env current_target state].
    repeat split. apply state_explicit_zero_contents. }
  split; [exact H|].
  apply (storage_instructions_deterministic G_LOAD G_SET G_RESET
           G_CLEAR_REFUND _ _ H).
Defined.

Lemma sstore_single_word_stack_mutated_witness :
  stack (sample_frame [5] 21100 ∅) = [5] ∧
  out_res (sstore' (sample_frame [5] 21100 ∅)) = Raise StackUnderflowError ∧
  stack (out_evm (sstore' (sample_frame [5] 21100 ∅))) = [].
Proof.
  split; [reflexivity|].
  destruct (sstore_single_word_stack_mutated G_SET G_RESET G_CLEAR_REFUND
              (sample_frame [5] 21100 ∅) 5 eq_refl)
    as (Hres & _ & Hstack & _).
  split; [exact Hres | exact Hstack].
Defined.

(** ** The further properties at sample frames *)

Ltac sample_in_bounds := unfold stack_in_bounds, STACK_DEPTH_LIMIT; cbn; lia.

Lemma sload_outcome_iff_witness :
  stack_in_bounds (sample_frame [5] 100 ∅) ∧
  out_res (sload' (sample_frame [5] 100 ∅)) = Ok tt.
Proof.
  split; [sample_in_bounds|].
  destruct (sload_outcome_iff G_LOAD (sample_frame [5] 100 ∅))
    as (Hok & _); [sample_in_bounds|].
  apply Hok. split; [discriminate | vm_compute; discriminate].
Defined.

Lemma sstore_outcome_iff_witness :
  stack (sample_frame [5; 9] 6000 state_slot5_is_7) = [5; 9] ∧
  out_res (sstore' (sample_frame [5; 9] 6000 state_slot5_is_7)) = Ok tt.
Proof.
  split; [reflexivity|].
  destruct (sstore_outcome_iff G_SET G_RESET G_CLEAR_REFUND
              (sample_frame [5; 9] 6000 state_slot5_is_7) 5 9 [] eq_refl)
    as (_ & _ & Hupd).
  apply Hupd.
  - intros [_ Hz]. vm_compute in Hz. discriminate.
  - vm_compute. discriminate.
Defined.

Lemma sload_out_of_gas_effects_witness :
  stack (sample_frame [5] 10 state_slot5_is_7) = [5] ∧
  gas_left (sample_frame [5] 10 state_slot5_is_7) < G_LOAD ∧
  out_res (sload' (sample_frame [5] 10 state_slot5_is_7))
  = Raise OutOfGasError ∧
  reads (out_trace (sload' (sample_frame [5] 10 state_slot5_is_7))) = [].
Proof.
  split; [reflexivity|]. split; [vm_compute; reflexivity|].
  destruct (sload_out_of_gas_effects G_LOAD
              (sample_frame [5] 10 state_slot5_is_7) 5 [])
    as (Hres & _ & Hreads & _);
    [reflexivity | vm_compute; reflexivity |].
  split; [exact Hres | exact Hreads].
Defined.

Lemma sstore_failure_atomic_witness :
  completed (sstore' (sample_frame [5; 7] 100 state_slot5_is_7)) = false ∧
  env (out_evm (sstore' (sample_frame [5; 7] 100 state_slot5_is_7)))
  = env (sample_frame [5; 7] 100 state_slot5_is_7).
Proof.
  split; [vm_compute; reflexivity|].
  apply (sstore_failure_atomic G_SET G_RESET G_CLEAR_REFUND
           (sample_frame [5; 7] 100 state_slot5_is_7)).
  vm_compute. reflexivity.
Defined.

Lemma stack_in_bounds_preserved_witness :
  stack_in_bounds (sample_frame [5; 7; 9] 21100 ∅) ∧
  stack_in_bounds (out_evm (sload' (sample_frame [5; 7; 9] 21100 ∅))) ∧
  stack_in_bounds (out_evm (sstore' (sample_frame [5; 7; 9] 21100 ∅))).
Proof.
  split; [sample_in_bounds|].
  apply (stack_in_bounds_preserved G_LOAD G_SET G_RESET G_CLEAR_REFUND
           (sample_frame [5; 7; 9] 21100 ∅)).
  sample_in_bounds.
Defined.

Lemma sstore_writes_one_slot_witness :
  stack (sample_frame [6; 9] 21100 state_slot5_is_7) = [6; 9] ∧
  out_res (sstore' (sample_frame [6; 9] 21100 state_slot5_is_7)) = Ok tt ∧
  slot_value (out_evm (sstore' (sample_frame [6; 9] 21100 state_slot5_is_7))) 6
  = 9 ∧
  get_storage
    (state (env (out_evm (sstore' (sample_frame [6; 9] 21100 state_slot5_is_7)))))
    sample_target (to_be_bytes32 5)
  = 7.
Proof.
  split; [reflexivity|]. split; [vm_compute; reflexivity|].
  destruct (sstore_writes_one_slot G_SET G_RESET G_CLEAR_REFUND
              (sample_frame [6; 9] 21100 state_slot5_is_7) 6 9 [])
    as (_ & Hslot & Hothers); [reflexivity | vm_compute; reflexivity |].
  split; [exact Hslot|].
  rewrite Hothers; [vm_compute; reflexivity|].
  vm_compute. discriminate.
Defined.

Lemma sstore_then_sload_other_key_witness :
  stack (sample_frame [6; 9; 5] 21100 state_slot5_is_7) = [6; 9; 5] ∧
  out_res (sstore' (sample_frame [6; 9; 5] 21100 state_slot5_is_7)) = Ok tt ∧
  stack (out_evm (sload' (out_evm
           (sstore' (sample_frame [6; 9; 5] 21100 state_slot5_is_7)))))
  = [7].
Proof.
  split; [reflexivity|]. split; [vm_compute; reflexivity|].
  destruct (sstore_then_sload_other_key G_LOAD G_SET G_RESET G_CLEAR_REFUND
              (sample_frame [6; 9; 5] 21100 state_slot5_is_7) 6 9 5 [])
    as (_ & Hstack);
    [ reflexivity | vm_compute; reflexivity | vm_compute; reflexivity
    | discriminate | sample_in_bounds | vm_compute; reflexivity
    | vm_compute; discriminate | ].
  rewrite Hstack. vm_compute. reflexivity.
Defined.

Lemma sstore_overwrite_witness :
  stack (sample_frame [5; 7; 5; 8] 50000 ∅) = [5; 7; 5; 8] ∧
  out_res (sstore' (sample_frame [5; 7; 5; 8] 50000 ∅)) = Ok tt ∧
  out_res (sstore' (out_evm (sstore' (sample_frame [5; 7; 5; 8] 50000 ∅))))
  = Ok tt ∧
  slot_value
    (out_evm (sstore' (out_evm (sstore' (sample_frame [5; 7; 5; 8] 50000 ∅)))))
    5
  = 8.
Proof.
  split; [reflexivity|]. split; [vm_compute; reflexivity|].
  split; [vm_compute; reflexivity|].
  apply (sstore_overwrite G_SET G_RESET G_CLEAR_REFUND
           (sample_frame [5; 7; 5; 8] 50000 ∅) 5 7 8 []);
    [reflexivity | vm_compute; reflexivity | vm_compute; reflexivity].
Defined.

Lemma sstore_same_value_again_witness :
  stack (sample_frame [5; 7; 5; 7] 50000 ∅) = [5; 7; 5; 7] ∧
  out_res (sstore' (sample_frame [5; 7; 5; 7] 50000 ∅)) = Ok tt ∧
  out_res (sstore' (out_evm (sstore' (sample_frame [5; 7; 5; 7] 50000 ∅))))
  = Ok tt ∧
  charges (out_trace
             (sstore' (out_evm (sstore' (sample_frame [5; 7; 5; 7] 50000 ∅)))))
  = [G_RESET].
Proof.
  split; [reflexivity|]. split; [vm_compute; reflexivity|].
  split; [vm_compute; reflexivity|].
  apply (sstore_same_value_again G_SET G_RESET G_CLEAR_REFUND
           (sample_frame [5; 7; 5; 7] 50000 ∅) 5 7 []);
    [reflexivity | vm_compute; reflexivity | vm_compute; reflexivity].
Defined.

Lemma sstore_set_then_clear_witness :
  stack (sample_frame [5; 7; 5; 0] 50000 ∅) = [5; 7; 5; 0] ∧
  slot_value (sample_frame [5; 7; 5; 0] 50000 ∅) 5 = 0 ∧
  out_res (sstore' (sample_frame [5; 7; 5; 0] 50000 ∅)) = Ok tt ∧
  out_res (sstore' (out_evm (sstore' (sample_frame [5; 7; 5; 0] 50000 ∅))))
  = Ok tt ∧
  refund_counter
    (out_evm (sstore' (out_evm (sstore' (sample_frame [5; 7; 5; 0] 50000 ∅)))))
  = 0 + G_CLEAR_REFUND.
Proof.
  split; [reflexivity|]. split; [vm_compute; reflexivity|].
  split; [vm_compute; reflexivity|]. split; [vm_compute; reflexivity|].
  destruct (sstore_set_then_clear G_SET G_RESET G_CLEAR_REFUND
              (sample_frame [5; 7; 5; 0] 50000 ∅) 5 7 [])
    as (_ & _ & Hrefund & _);
    [ reflexivity | discriminate | vm_compute; reflexivity
    | vm_compute; reflexivity | vm_compute; reflexivity | ].
  exact Hrefund.
Defined.
